(** * AceBaseClientAuth: the session adapter of src/src/auth.js

    A shallow embedding of the class [AceBaseClientAuth].  The adapter keeps
    two fields, [this.user] and [this.accessToken], forwards every operation
    to [this.client.api] and reports sign-in and sign-out through
    [this.eventCallback].

    - JavaScript values are the inductive [value]; object literals are finite
      maps from property names to values.
    - [AceBaseUser] instances are mutable and shared by reference (the event
      payloads, the resolved results and [this.user] all point to the same
      object), so they live in a store and are named by their location.  An
      instance has its own properties and a prototype: an assignment to the
      property [__proto__] goes to the setter of [Object.prototype], which
      replaces the prototype and writes no property.
    - A method is a computation in the monad [M]: it threads the adapter's
      fields, the store and the log of what the adapter did to the outside
      (calls of the remote API, calls of the event callback), and it settles
      like the promise the method returns: fulfilled with a result or
      rejected with an error value.
    - The answer of the remote API is an argument of the method: the promise
      [this.client.api.f(...)] settles with it, and the [.then] callback runs
      on it.  One method call is one step: nothing else runs between the call
      and the callback. *)

From stdpp Require Import gmap strings list fin_maps.

Open Scope string_scope.
Open Scope list_scope.
Set Warnings "-register-all".

(** ** JavaScript values *)

(** Numbers are the integer-valued ones; functions, symbols and NaN are left
    out.  An object value is an immutable record of its own enumerable
    properties. *)
Inductive value :=
  | VUndefined
  | VNull
  | VBool (b : bool)
  | VNum (n : Z)
  | VStr (s : string)
  | VObj (fields : gmap string value).

Abbreviation obj := (gmap string value).

(** [typeof v] *)
Definition typeof (v : value) : string :=
  match v with
  | VUndefined => "undefined"
  | VNull => "object"
  | VBool _ => "boolean"
  | VNum _ => "number"
  | VStr _ => "string"
  | VObj _ => "object"
  end.

(** The truth value of [v] in a condition, [!v], [v && _] and [v || _]. *)
Definition truthy (v : value) : bool :=
  match v with
  | VUndefined | VNull => false
  | VBool b => b
  | VNum n => negb (n =? 0)%Z
  | VStr s => negb (String.eqb s "")
  | VObj _ => true
  end.

(** [v === 'literal'] *)
Definition is_string (v : value) (s : string) : bool :=
  match v with
  | VStr s' => String.eqb s' s
  | _ => false
  end.

(** [o.key] on an object: a missing property reads as [undefined]. *)
Definition prop (o : obj) (key : string) : value :=
  default VUndefined (o !! key).

(** [a || b] *)
Definition js_or (a b : value) : value := if truthy a then a else b.

(** ** User objects *)

(** What the prototype slot of a user object holds: the prototype of the
    class [AceBaseUser], as in every new instance; a plain object, once an
    assignment to [__proto__] has put it there; or [null]. *)
Inductive prototype :=
  | ClassPrototype
  | Replaced (o : obj)
  | NoPrototype.

(** An instance of [AceBaseUser]: its own properties and its prototype.  The
    own properties are writable data properties and the object is
    extensible.  The prototype of the class holds methods, no accessor and
    nothing named [uid] or [__proto__]; above it is [Object.prototype].  A
    plain object, as [JSON.parse] builds it, has [Object.prototype] for
    prototype. *)
Record user_object := UserObject {
  own : obj;
  proto : prototype
}.

(** [u.uid]: the own property, else what the prototype chain has;
    [Object.prototype] has nothing of that name. *)
Definition uid_of_user (u : user_object) : value :=
  match own u !! "uid" with
  | Some v => v
  | None =>
      match proto u with
      | Replaced o => prop o "uid"
      | ClassPrototype | NoPrototype => VUndefined
      end
  end.

(** Whether [o] has an own property [key]. *)
Definition has (o : obj) (key : string) : bool :=
  match o !! key with
  | Some _ => true
  | None => false
  end.

(** Whether an assignment [u.__proto__ = v] ends at the setter that
    [Object.prototype] has under that name: [u] has no own property of the
    name, and neither has an object of its prototype chain below
    [Object.prototype]. *)
Definition reaches_setter (u : user_object) : bool :=
  negb (has (own u) "__proto__")
  && match proto u with
     | ClassPrototype => true
     | Replaced o => negb (has o "__proto__")
     | NoPrototype => false
     end.

(** [u[key] = v].  An own property is overwritten.  A name that the chain
    has as a data property, or has not at all, becomes an own property.  The
    name [__proto__], when the assignment ends at the setter of
    [Object.prototype], writes no property: the setter makes an object or
    [null] the prototype of [u] and ignores every other value. *)
Definition write (u : user_object) (key : string) (v : value) : user_object :=
  if String.eqb key "__proto__" && reaches_setter u
  then
    match v with
    | VObj o => UserObject (own u) (Replaced o)
    | VNull => UserObject (own u) NoPrototype
    | _ => u
    end
  else UserObject (<[key := v]> (own u)) (proto u).

(** A user object with the given own properties, as the class builds it. *)
Definition plain (o : obj) : user_object := UserObject o ClassPrototype.

(** ** Errors *)

(** The object literals passed to [Promise.reject]. *)
Definition error (code message : string) : value :=
  VObj {[ "code" := VStr code; "message" := VStr message ]}.

Definition not_signed_in : value := error "not_signed_in" "Not signed in!".
Definition invalid_details (message : string) : value :=
  error "invalid_details" message.
Definition not_admin : value :=
  error "not_admin"
    "Cannot remove other accounts than signed into account, unless you are admin".
Definition not_allowed : value := error "not_allowed" "Cannot remove admin user".

(** What the engine throws on a property write to [null]. *)
Definition TypeError : value := VObj {[ "name" := VStr "TypeError" ]}.

(** [e.code] of a rejection. *)
Definition code_of (e : value) : value :=
  match e with
  | VObj o => prop o "code"
  | _ => VUndefined
  end.

(** ** The adapter, the store and the log *)

Abbreviation loc := nat.

(** The fields [this.user] and [this.accessToken]; [None] is [null]. *)
Record session := Session {
  user : option loc;
  accessToken : value
}.

(** The operations of [this.client.api], with their arguments. *)
Inductive api_call :=
  | ApiSignIn (username password : value)
  | ApiSignInWithEmail (email password : value)
  | ApiSignInWithToken (token : value)
  | ApiSignOut (everywhere : value)
  | ApiChangePassword (uid oldPassword newPassword : value)
  | ApiForgotPassword (email : value)
  | ApiResetPassword (resetCode newPassword : value)
  | ApiUpdateUserDetails (details : value)
  | ApiSignUp (details : value) (signIn : bool)
  | ApiDeleteAccount (uid : value) (signOut : bool).

(** The second argument of [this.eventCallback]: [{ source, user }] for a
    sign-out, [{ source, user, accessToken }] for a sign-in. *)
Record payload := Payload {
  source : string;
  payload_user : option loc;
  payload_accessToken : option value
}.

Inductive action :=
  | Call (c : api_call)
  | Event (name : string) (p : payload).

Record world := World {
  this : session;
  store : list user_object;
  log : list action
}.

(** The constructor leaves everything empty. *)
Definition constructor : world :=
  World (Session None VNull) [] [].

(** ** Promises *)

Inductive settled (A : Type) :=
  | Fulfilled (a : A)
  | Rejected (reason : value).
Arguments Fulfilled {A} a.
Arguments Rejected {A} reason.

Definition M (A : Type) : Type := world -> settled A * world.

#[global] Instance M_ret : MRet M := λ A a w, (Fulfilled a, w).

#[global] Instance M_bind : MBind M := λ A B f m w,
  match m w with
  | (Fulfilled a, w') => f a w'
  | (Rejected e, w') => (Rejected e, w')
  end.

(** [Promise.reject(e)] *)
Definition reject {A} (e : value) : M A := λ w, (Rejected e, w).

Definition getUser : M (option loc) := λ w, (Fulfilled (user (this w)), w).

Definition setUser (u : option loc) : M unit := λ w,
  (Fulfilled (), World (Session u (accessToken (this w))) (store w) (log w)).

Definition getAccessToken : M value := λ w,
  (Fulfilled (accessToken (this w)), w).

Definition setAccessToken (t : value) : M unit := λ w,
  (Fulfilled (), World (Session (user (this w)) t) (store w) (log w)).

(** The object at a location; every location handed out is allocated, the
    default is never read on a well-formed world. *)
Definition readObj (l : loc) : M user_object := λ w,
  (Fulfilled (default (plain ∅) (store w !! l)), w).

(** [u[key] = v] on the object at [l]. *)
Definition setField (l : loc) (key : string) (v : value) : M unit := λ w,
  (Fulfilled (),
   World (this w) (alter (λ u, write u key v) l (store w)) (log w)).

(** Allocation of a new object: the next free location. *)
Definition alloc (o : user_object) : M loc := λ w,
  (Fulfilled (length (store w)), World (this w) (store w ++ [o]) (log w)).

(** [this.eventCallback(name, p)]: the listener is outside the adapter; the
    call is recorded. *)
Definition eventCallback (name : string) (p : payload) : M unit := λ w,
  (Fulfilled (), World (this w) (store w) (log w ++ [Event name p])).

(** A call of the remote API that settles with [r]. *)
Definition api {A} (c : api_call) (r : settled A) : M A := λ w,
  (r, World (this w) (store w) (log w ++ [Call c])).

(** Nothing to do. *)
Definition skip : M unit := mret ().

(** [l.forEach(f)] *)
Fixpoint forEach {A} (l : list A) (f : A → M unit) : M unit :=
  match l with
  | [] => skip
  | x :: l' => f x ;; forEach l' f
  end.

(** ** What the remote API resolves with *)

(** A fulfilled answer has the shape that the remote API promises: an object
    with the properties below.  An answer of another shape, on which the
    [.then] callback would throw, is not among the answers considered. *)

(** [{ accessToken, user }] of the sign-in operations and of sign-up (where
    the token may be [undefined]). *)
Record AuthDetails := {
  details_accessToken : value;
  details_user : value
}.

(** [{ accessToken }] of [changePassword]. *)
Record PasswordDetails := { password_accessToken : value }.

(** [{ user }] of [updateUserDetails]; the user is a plain object, whose
    own enumerable properties are what [Object.keys] lists. *)
Record UserDetails := { result_user : obj }.

(** ** What the methods resolve with *)

(** [{ user: this.user, accessToken: this.accessToken }] *)
Record SignInResult := {
  signed_user : option loc;
  signed_accessToken : value
}.

(** [{ accessToken: result.accessToken }] *)
Record PasswordResult := { new_accessToken : value }.

(** [{ user: this.user }] *)
Record UpdateResult := { updated_user : option loc }.

(** [{ user: details.user }] for the admin, the sign-in result otherwise. *)
Inductive SignUpResult :=
  | Created (profile : value)
  | SignedUp (r : SignInResult).

(** ** Calls of the adapter *)

(** A call of a method together with what the remote API answers, should the
    method get as far as asking it. *)
Inductive request :=
  | SignIn (username password : value) (r : settled AuthDetails)
  | SignInWithEmail (email password : value) (r : settled AuthDetails)
  | SignInWithToken (token : value) (r : settled AuthDetails)
  | SignOut (everywhere : value) (r : settled value)
  | ChangePassword (oldPassword newPassword : value) (r : settled PasswordDetails)
  | ForgotPassword (email : value) (r : settled value)
  | ResetPassword (resetCode newPassword : value) (r : settled value)
  | UpdateUserDetails (details : value) (r : settled UserDetails)
  | ChangeUsername (newUsername : value) (r : settled UserDetails)
  | ChangeEmail (newEmail : value) (r : settled UserDetails)
  | UpdateUserSettings (settings : value) (r : settled UserDetails)
  | SignUp (details : obj) (r : settled AuthDetails)
  | DeleteAccount (uid : value) (r : settled value).

(** Forget what a promise is fulfilled with. *)
Definition void {A} (m : M A) : M unit := m ;; skip.

(** ** Vocabulary of the specification *)

(** A token is present when it is neither [null] nor [undefined]. *)
Definition present (t : value) : bool :=
  match t with
  | VUndefined | VNull => false
  | _ => true
  end.

(** The user and the token are both present or both absent. *)
Definition paired (s : session) : Prop :=
  is_Some (user s) ↔ present (accessToken s) = true.

(** The object of the current user, and whether it is the admin account. *)
Definition current (w : world) : option user_object :=
  l ← user (this w) ; store w !! l.

(** [u.uid] for the user object at [l]. *)
Definition uid_of (w : world) (l : loc) : value :=
  uid_of_user (default (plain ∅) (store w !! l)).

Definition is_admin (w : world) : bool :=
  match user (this w) with
  | None => false
  | Some l => is_string (uid_of w l) "admin"
  end.

(** The details that [signUp] lets through: a username or an email, and a
    password. *)
Definition valid_details (details : obj) : bool :=
  (truthy (prop details "username") || truthy (prop details "email"))
  && truthy (prop details "password").

(** The calls that drop [this.user] before they ask the remote API. *)
Definition clears_user (w : world) (q : request) : bool :=
  match q with
  | SignIn _ _ _ | SignInWithEmail _ _ _ | SignInWithToken _ _ => true
  | SignUp details _ =>
      valid_details details
      && bool_decide (is_Some (user (this w))) && negb (is_admin w)
  | _ => false
  end.

(** The remote API hands out a token wherever the adapter stores one: on a
    sign-in, on a change of password, and on a sign-up that signs into the
    new account. *)
Definition token_issued (w : world) (q : request) : Prop :=
  match q with
  | SignIn _ _ (Fulfilled d) | SignInWithEmail _ _ (Fulfilled d)
  | SignInWithToken _ (Fulfilled d) =>
      present (details_accessToken d) = true
  | ChangePassword _ _ (Fulfilled d) =>
      present (password_accessToken d) = true
  | SignUp _ (Fulfilled d) =>
      is_admin w = false → present (details_accessToken d) = true
  | _ => True
  end.

(** The number of calls of the event callback with the name [name] in a
    log. *)
Definition is_event (name : string) (a : action) : bool :=
  match a with
  | Event n _ => String.eqb n name
  | Call _ => false
  end.

Definition count_events (name : string) (acts : list action) : nat :=
  length (List.filter (is_event name) acts).

(** A sample of the constructor of [AceBaseUser], used where a closed
    instance of the methods is evaluated: it copies the properties of the
    profile. *)
Definition copy_profile (profile : value) : user_object :=
  match profile with
  | VObj o => plain o
  | _ => plain ∅
  end.

(** The callback of the [forEach] in [_updateUserDetails]:
    [key => { this.user[key] = result.user[key] }]; a write through [null]
    throws. *)
Definition assign_field (kv : string * value) : M unit :=
  u ← getUser ;
  match u with
  | Some l => setField l kv.1 kv.2
  | None => reject TypeError
  end.

(** ** Vocabulary of the log *)

(** The calls of the remote API in a log, and the calls of the event
    callback, each in their order. *)
Definition calls (acts : list action) : list api_call :=
  omap (λ a, match a with
             | Call c => Some c
             | Event _ _ => None
             end) acts.

Definition events (acts : list action) : list (string * payload) :=
  omap (λ a, match a with
             | Event name p => Some (name, p)
             | Call _ => None
             end) acts.

(** How the promise of the remote API settles, its value forgotten. *)
Definition settles {A} (r : settled A) : settled unit :=
  match r with
  | Fulfilled _ => Fulfilled ()
  | Rejected e => Rejected e
  end.

(** The answer that the remote API has for a call of the adapter. *)
Definition answer (q : request) : settled unit :=
  match q with
  | SignIn _ _ r | SignInWithEmail _ _ r | SignInWithToken _ r
  | SignUp _ r => settles r
  | SignOut _ r | ForgotPassword _ r | ResetPassword _ _ r
  | DeleteAccount _ r => settles r
  | ChangePassword _ _ r => settles r
  | UpdateUserDetails _ r | ChangeUsername _ r | ChangeEmail _ r
  | UpdateUserSettings _ r => settles r
  end.

(** The four errors that the adapter raises itself. *)
Definition local_error (e : value) : Prop :=
  e = not_signed_in ∨ e = not_admin ∨ e = not_allowed
  ∨ ∃ message, e = invalid_details message.

(** The calls that only forward to the remote API or update the details of
    the user: the pass-through methods and the detail updates. *)
Definition quiet (q : request) : bool :=
  match q with
  | ForgotPassword _ _ | ResetPassword _ _ _ | UpdateUserDetails _ _
  | ChangeUsername _ _ | ChangeEmail _ _ | UpdateUserSettings _ _ => true
  | _ => false
  end.

(** The detail updates. *)
Definition is_update (q : request) : bool :=
  match q with
  | UpdateUserDetails _ _ | ChangeUsername _ _ | ChangeEmail _ _
  | UpdateUserSettings _ _ => true
  | _ => false
  end.


(** One when a user is signed in, zero when not. *)
Definition signed_in_count (w : world) : nat :=
  match user (this w) with
  | Some _ => 1
  | None => 0
  end.

(** ** Sample data, for the closed instances *)

Definition bob : obj := {[ "uid" := VStr "bob"; "username" := VStr "bob" ]}.

Definition admin : obj :=
  {[ "uid" := VStr "admin"; "username" := VStr "admin" ]}.

(** An error of the remote API. *)
Definition refused : value := VStr "refused".

(** The world after [signIn(o.username, 'secret')] on a new adapter, answered
    with the token t1 and the profile [o]. *)
Definition signed_in_as (o : obj) : world :=
  World (Session (Some 0) (VStr "t1")) [plain o]
    [Call (ApiSignIn (prop o "username") (VStr "secret"));
     Event "signin" (Payload "signin" (Some 0) (Some (VStr "t1")))].

Definition new_account : obj :=
  {[ "username" := VStr "a"; "password" := VStr "x";
     "displayName" := VStr "A" ]}.

Definition account_created : AuthDetails :=
  {| details_accessToken := VStr "t2";
     details_user := VObj {[ "uid" := VStr "a"; "username" := VStr "a" ]} |}.

(** ** The methods *)

Section Auth.

(** [AceBaseUser] is the class of ./user; the object that
    [new AceBaseUser(profile)] builds, own properties and prototype, is a
    parameter of the development. *)
Variable AceBaseUser : value → user_object.

(** The [.then] callback shared, up to the source tag, by the three sign-in
    methods. *)
Definition signedIn (tag : string) (details : AuthDetails) : M SignInResult :=
  setAccessToken (details_accessToken details) ;;
  l ← alloc (AceBaseUser (details_user details)) ;
  setUser (Some l) ;;
  u ← getUser ; t ← getAccessToken ;
  eventCallback "signin" (Payload tag u (Some t)) ;;
  u ← getUser ; t ← getAccessToken ;
  mret {| signed_user := u; signed_accessToken := t |}.

Definition signIn (username password : value) (r : settled AuthDetails)
  : M SignInResult :=
  setUser None ;;
  details ← api (ApiSignIn username password) r ;
  signedIn "signin" details.

Definition signInWithEmail (email password : value) (r : settled AuthDetails)
  : M SignInResult :=
  setUser None ;;
  details ← api (ApiSignInWithEmail email password) r ;
  signedIn "email_signin" details.

Definition signInWithToken (token : value) (r : settled AuthDetails)
  : M SignInResult :=
  setUser None ;;
  details ← api (ApiSignInWithToken token) r ;
  signedIn "token_signin" details.

Definition signOut (everywhere : value) (r : settled value) : M unit :=
  u ← getUser ;
  match u with
  | None => reject not_signed_in
  | Some _ =>
      api (ApiSignOut everywhere) r ;;
      setAccessToken VNull ;;
      user ← getUser ;
      setUser None ;;
      eventCallback "signout" (Payload "signout" user None)
  end.

Definition changePassword (oldPassword newPassword : value)
    (r : settled PasswordDetails) : M PasswordResult :=
  u ← getUser ;
  match u with
  | None => reject not_signed_in
  | Some l =>
      o ← readObj l ;
      result ← api (ApiChangePassword (uid_of_user o) oldPassword newPassword) r ;
      setAccessToken (password_accessToken result) ;;
      u ← getUser ; t ← getAccessToken ;
      eventCallback "signin" (Payload "password_change" u (Some t)) ;;
      mret {| new_accessToken := password_accessToken result |}
  end.

Definition forgotPassword (email : value) (r : settled value) : M value :=
  api (ApiForgotPassword email) r.

Definition resetPassword (resetCode newPassword : value) (r : settled value)
  : M value :=
  api (ApiResetPassword resetCode newPassword) r.

Definition _updateUserDetails (details : value) (r : settled UserDetails)
  : M UpdateResult :=
  u ← getUser ;
  match u with
  | None => reject not_signed_in
  | Some _ =>
      if negb (String.eqb (typeof details) "object")
      then reject (invalid_details "details must be an object")
      else
        result ← api (ApiUpdateUserDetails details) r ;
        forEach (map_to_list (result_user result)) assign_field ;;
        u ← getUser ;
        mret {| updated_user := u |}
  end.

Definition changeUsername (newUsername : value) (r : settled UserDetails)
  : M UpdateResult :=
  _updateUserDetails (VObj {[ "username" := newUsername ]}) r.

Definition changeEmail (newEmail : value) (r : settled UserDetails)
  : M UpdateResult :=
  _updateUserDetails (VObj {[ "email" := newEmail ]}) r.

Definition updateUserSettings (settings : value) (r : settled UserDetails)
  : M UpdateResult :=
  _updateUserDetails (VObj {[ "settings" := settings ]}) r.

(** [this.user && this.user.uid === 'admin']; the value is only ever used as
    a condition, so [null] and [false] are one. *)
Definition isAdminUser : M bool :=
  u ← getUser ;
  match u with
  | None => mret false
  | Some l => o ← readObj l ; mret (is_string (uid_of_user o) "admin")
  end.

(** [details] is an object, as index.d.ts declares it. *)
Definition signUp (details : obj) (r : settled AuthDetails) : M SignUpResult :=
  if negb (truthy (prop details "username")) && negb (truthy (prop details "email"))
  then reject (invalid_details "No username or email set")
  else if negb (truthy (prop details "password"))
  then reject (invalid_details "No password given")
  else
    isAdmin ← isAdminUser ;
    u ← getUser ;
    (if bool_decide (is_Some u) && negb isAdmin
     then
       user ← getUser ;
       setUser None ;;
       eventCallback "signout" (Payload "signup" user None)
     else skip) ;;
    details ← api (ApiSignUp (VObj details) (negb isAdmin)) r ;
    if (isAdmin : bool)
    then mret (Created (details_user details))
    else res ← signedIn "signup" details ; mret (SignedUp res).

Definition deleteAccount (uid : value) (r : settled value) : M unit :=
  u ← getUser ;
  match u with
  | None => reject not_signed_in
  | Some l =>
      o ← readObj l ;
      if truthy uid && negb (is_string (uid_of_user o) "admin")
      then reject not_admin
      else
        let deleteUid := js_or uid (uid_of_user o) in
        if is_string deleteUid "admin"
        then reject not_allowed
        else
          let signOut := negb (is_string (uid_of_user o) "admin") in
          api (ApiDeleteAccount deleteUid signOut) r ;;
          if signOut
          then
            setAccessToken VNull ;;
            user ← getUser ;
            setUser None ;;
            eventCallback "signout" (Payload "delete_account" user None)
          else skip
  end.

Definition perform (q : request) : M unit :=
  match q with
  | SignIn username password r => void (signIn username password r)
  | SignInWithEmail email password r => void (signInWithEmail email password r)
  | SignInWithToken token r => void (signInWithToken token r)
  | SignOut everywhere r => signOut everywhere r
  | ChangePassword oldPassword newPassword r =>
      void (changePassword oldPassword newPassword r)
  | ForgotPassword email r => void (forgotPassword email r)
  | ResetPassword resetCode newPassword r =>
      void (resetPassword resetCode newPassword r)
  | UpdateUserDetails details r => void (_updateUserDetails details r)
  | ChangeUsername newUsername r => void (changeUsername newUsername r)
  | ChangeEmail newEmail r => void (changeEmail newEmail r)
  | UpdateUserSettings settings r => void (updateUserSettings settings r)
  | SignUp details r => void (signUp details r)
  | DeleteAccount uid r => deleteAccount uid r
  end.

(** The worlds that sequences of calls lead to from a new adapter, against a
    remote API that issues its tokens. *)
Inductive reachable : world → Prop :=
  | reachable_constructor : reachable constructor
  | reachable_perform w q :
      reachable w → token_issued w q → reachable (perform q w).2.

(** A sequence of calls made one after the other, each settled before the
    next is made. *)
Definition run (qs : list request) (w : world) : world :=
  foldl (λ w q, (perform q w).2) w qs.

(** What a successful sign-in through the method [m] does from any world:
    the remote API is called once with [c], a new [AceBaseUser] is built from
    the profile and becomes the current user, the returned token is stored,
    one signin event tagged [tag] carries both, and the promise is fulfilled
    with both. *)
Definition signs_in (m : M SignInResult) (c : api_call) (tag : string)
    (d : AuthDetails) : Prop :=
  ∀ w,
    let l := length (store w) in
    let t := details_accessToken d in
    m w =
      (Fulfilled {| signed_user := Some l; signed_accessToken := t |},
       World (Session (Some l) t)
         (store w ++ [AceBaseUser (details_user d)])
         (log w ++ [Call c; Event "signin" (Payload tag (Some l) (Some t))]))
    ∧ (store w ++ [AceBaseUser (details_user d)]) !! l
      = Some (AceBaseUser (details_user d))
    ∧ count_events "signin" (log (m w).2)
      = S (count_events "signin" (log w)).

(** A sign-in that the remote API refuses has already dropped the user. *)
Definition drops_user (m : M SignInResult) (c : api_call) (e : value) : Prop :=
  ∀ w, m w =
    (Rejected e,
     World (Session None (accessToken (this w))) (store w) (log w ++ [Call c])).

(** The object [u] after the assignments [u[k] = v] for the pairs of [kvs],
    in their order. *)
Definition assign (u : user_object) (kvs : list (string * value))
  : user_object :=
  foldl (λ acc kv, write acc kv.1 kv.2) u kvs.


(** * Properties *)

(** ** Running the methods *)

Ltac run_M :=
  unfold signIn, signInWithEmail, signInWithToken, signedIn, signOut,
    changePassword, forgotPassword, resetPassword, _updateUserDetails,
    signUp, deleteAccount, isAdminUser, void, skip,
    getUser, setUser, getAccessToken, setAccessToken, readObj, alloc,
    eventCallback, api, reject, mbind, mret, M_bind, M_ret;
  cbn [this user accessToken store log
       details_accessToken details_user password_accessToken fst snd].

Ltac same_log := repeat rewrite <- app_assoc; reflexivity.

Lemma signedIn_run tag d w :
  signedIn tag d w =
    (Fulfilled {| signed_user := Some (length (store w));
                  signed_accessToken := details_accessToken d |},
     World (Session (Some (length (store w))) (details_accessToken d))
       (store w ++ [AceBaseUser (details_user d)])
       (log w ++ [Event "signin"
                    (Payload tag (Some (length (store w)))
                       (Some (details_accessToken d)))])).
Proof. run_M. reflexivity. Qed.

Lemma lookup_new_object (st : list user_object) (o : user_object) :
  (st ++ [o]) !! length st = Some o.
Proof. by rewrite lookup_app_r, Nat.sub_diag. Qed.

Lemma count_events_app name acts1 acts2 :
  count_events name (acts1 ++ acts2) =
    count_events name acts1 + count_events name acts2.
Proof. unfold count_events. by rewrite List.filter_app, length_app. Qed.

Lemma signs_in_intro (m : M SignInResult) c tag d :
  (∀ w, m w = (api c (Fulfilled d) ;; signedIn tag d) w) →
  signs_in m c tag d.
Proof.
  intros Hm w. rewrite Hm.
  assert ((api c (Fulfilled d) ;; signedIn tag d) w =
    (Fulfilled {| signed_user := Some (length (store w));
                  signed_accessToken := details_accessToken d |},
     World (Session (Some (length (store w))) (details_accessToken d))
       (store w ++ [AceBaseUser (details_user d)])
       (log w ++ [Call c;
                  Event "signin"
                    (Payload tag (Some (length (store w)))
                       (Some (details_accessToken d)))]))) as ->
    by (run_M; same_log).
  split_and!; [done | apply lookup_new_object |].
  cbn [snd log]. rewrite count_events_app. cbn. lia.
Qed.

Lemma signIn_fulfilled username password d :
  signs_in (signIn username password (Fulfilled d))
    (ApiSignIn username password) "signin" d.
Proof. by apply signs_in_intro. Qed.

Lemma signInWithEmail_fulfilled email password d :
  signs_in (signInWithEmail email password (Fulfilled d))
    (ApiSignInWithEmail email password) "email_signin" d.
Proof. by apply signs_in_intro. Qed.

Lemma signInWithToken_fulfilled token d :
  signs_in (signInWithToken token (Fulfilled d))
    (ApiSignInWithToken token) "token_signin" d.
Proof. by apply signs_in_intro. Qed.

Lemma signIn_rejected username password e :
  drops_user (signIn username password (Rejected e))
    (ApiSignIn username password) e.
Proof. intros w. by run_M. Qed.

Lemma signInWithEmail_rejected email password e :
  drops_user (signInWithEmail email password (Rejected e))
    (ApiSignInWithEmail email password) e.
Proof. intros w. by run_M. Qed.

Lemma signInWithToken_rejected token e :
  drops_user (signInWithToken token (Rejected e)) (ApiSignInWithToken token) e.
Proof. intros w. by run_M. Qed.

(** ** signOut, changePassword and the pass-through methods *)

Lemma signOut_signed_out everywhere r w :
  user (this w) = None → signOut everywhere r w = (Rejected not_signed_in, w).
Proof. intros H. run_M. by rewrite H. Qed.

Lemma signOut_rejected everywhere e w :
  is_Some (user (this w)) →
  signOut everywhere (Rejected e) w =
    (Rejected e,
     World (this w) (store w) (log w ++ [Call (ApiSignOut everywhere)])).
Proof. intros [l H]. run_M. by rewrite H. Qed.

Lemma signOut_fulfilled everywhere v w :
  is_Some (user (this w)) →
  signOut everywhere (Fulfilled v) w =
    (Fulfilled (),
     World (Session None VNull) (store w)
       (log w ++ [Call (ApiSignOut everywhere);
                  Event "signout" (Payload "signout" (user (this w)) None)])).
Proof. intros [l H]. run_M. rewrite H. run_M. rewrite ?H. same_log. Qed.

Lemma changePassword_signed_out oldPassword newPassword r w :
  user (this w) = None →
  changePassword oldPassword newPassword r w = (Rejected not_signed_in, w).
Proof. intros H. run_M. by rewrite H. Qed.

Lemma changePassword_rejected oldPassword newPassword e w l :
  user (this w) = Some l →
  changePassword oldPassword newPassword (Rejected e) w =
    (Rejected e,
     World (this w) (store w)
       (log w ++ [Call (ApiChangePassword (uid_of w l)
                          oldPassword newPassword)])).
Proof. intros H. run_M. by rewrite H. Qed.

Lemma changePassword_fulfilled oldPassword newPassword d w l :
  user (this w) = Some l →
  changePassword oldPassword newPassword (Fulfilled d) w =
    (Fulfilled {| new_accessToken := password_accessToken d |},
     World (Session (Some l) (password_accessToken d)) (store w)
       (log w ++ [Call (ApiChangePassword (uid_of w l)
                          oldPassword newPassword);
                  Event "signin"
                    (Payload "password_change" (Some l)
                       (Some (password_accessToken d)))])).
Proof. intros H. run_M. rewrite H. run_M. rewrite ?H. same_log. Qed.

Lemma forgotPassword_run email r w :
  forgotPassword email r w =
    (r, World (this w) (store w) (log w ++ [Call (ApiForgotPassword email)])).
Proof. reflexivity. Qed.

Lemma resetPassword_run resetCode newPassword r w :
  resetPassword resetCode newPassword r w =
    (r, World (this w) (store w)
          (log w ++ [Call (ApiResetPassword resetCode newPassword)])).
Proof. reflexivity. Qed.

(** ** The detail updates *)

(** A write under another name than [__proto__] makes the own property and
    touches nothing else. *)
Lemma write_own_lookup u key v k :
  k ≠ "__proto__" →
  own (write u key v) !! k =
    if decide (key = k) then Some v else own u !! k.
Proof.
  intros Hk. unfold write.
  destruct (String.eqb_spec key "__proto__") as [->|Hkey]; cbn [andb].
  - rewrite decide_False by done.
    destruct (reaches_setter u); [by destruct v|].
    cbn [own]. by rewrite lookup_insert_ne.
  - cbn [own]. by rewrite lookup_insert.
Qed.


Lemma assign_own_lookup (kvs : list (string * value)) :
  NoDup kvs.*1 →
  ∀ u k, k ≠ "__proto__" →
    own (assign u kvs) !! k =
      match (list_to_map kvs : obj) !! k with
      | Some v => Some v
      | None => own u !! k
      end.
Proof.
  induction kvs as [|[k1 v1] kvs IH]; intros Hnd u k Hk.
  - by rewrite list_to_map_nil, lookup_empty.
  - apply NoDup_cons in Hnd as [Hk1 Hnd].
    change (assign u ((k1, v1) :: kvs)) with (assign (write u k1 v1) kvs).
    rewrite (IH Hnd) by done. rewrite list_to_map_cons, write_own_lookup by done.
    destruct (decide (k1 = k)) as [->|Hne].
    + rewrite (not_elem_of_list_to_map_1 _ _ Hk1).
      by rewrite lookup_insert_eq.
    + by rewrite lookup_insert_ne.
Qed.


(** The object after the loop over the keys of [m]: under every name but
    [__proto__], the properties of [m] overwrite and the others stay. *)
Lemma assign_map_lookup u (m : obj) k :
  k ≠ "__proto__" →
  own (assign u (map_to_list m)) !! k =
    match m !! k with
    | Some v => Some v
    | None => own u !! k
    end.
Proof.
  intros Hk. rewrite assign_own_lookup by (apply NoDup_fst_map_to_list || done).
  by rewrite list_to_map_to_list.
Qed.


Lemma assign_field_run kv w l :
  user (this w) = Some l →
  assign_field kv w =
    (Fulfilled (),
     World (this w) (alter (λ u, write u kv.1 kv.2) l (store w)) (log w)).
Proof. intros H. unfold assign_field. run_M. by rewrite H. Qed.

Lemma forEach_assign_field kvs w l :
  user (this w) = Some l →
  forEach kvs assign_field w =
    (Fulfilled (),
     World (this w) (alter (λ u, assign u kvs) l (store w)) (log w)).
Proof.
  revert w. induction kvs as [|kv kvs IH]; intros w H.
  - cbn. rewrite list_alter_id by done. by destruct w.
  - cbn [forEach]. unfold mbind, M_bind.
    rewrite (assign_field_run _ _ l H), IH by done. cbn [this store log].
    by rewrite list_alter_alter_eq.
Qed.

Lemma updateUserDetails_signed_out details r w :
  user (this w) = None →
  _updateUserDetails details r w = (Rejected not_signed_in, w).
Proof. intros H. run_M. by rewrite H. Qed.

(** Whatever [typeof] does not call an object is refused before the remote
    API is asked. *)
Lemma updateUserDetails_not_object details r w :
  is_Some (user (this w)) →
  typeof details ≠ "object" →
  _updateUserDetails details r w =
    (Rejected (invalid_details "details must be an object"), w).
Proof.
  intros [l H] Hty. run_M. rewrite H.
  destruct (String.eqb_spec (typeof details) "object"); done.
Qed.

Lemma updateUserDetails_rejected details e w :
  is_Some (user (this w)) →
  typeof details = "object" →
  _updateUserDetails details (Rejected e) w =
    (Rejected e,
     World (this w) (store w) (log w ++ [Call (ApiUpdateUserDetails details)])).
Proof. intros [l H] Hty. run_M. by rewrite H, Hty, String.eqb_refl. Qed.

Lemma updateUserDetails_fulfilled details d w l :
  user (this w) = Some l →
  typeof details = "object" →
  _updateUserDetails details (Fulfilled d) w =
    (Fulfilled {| updated_user := Some l |},
     World (this w)
       (alter (λ u, assign u (map_to_list (result_user d))) l (store w))
       (log w ++ [Call (ApiUpdateUserDetails details)])).
Proof.
  intros H Hty. run_M. rewrite H, Hty, String.eqb_refl. cbn [negb].
  rewrite (forEach_assign_field _ _ l) by done.
  cbn [this user store log]. by rewrite H.
Qed.

(** ** signUp *)

Lemma isAdminUser_run w : isAdminUser w = (Fulfilled (is_admin w), w).
Proof. unfold is_admin. run_M. by destruct (user (this w)). Qed.

Lemma signUp_invalid details r w :
  valid_details details = false →
  ∃ message, signUp details r w = (Rejected (invalid_details message), w).
Proof.
  unfold valid_details, signUp. intros H.
  destruct (truthy (prop details "username")), (truthy (prop details "email")),
    (truthy (prop details "password")); cbn in H |- *; try done; eauto.
Qed.

Lemma signUp_valid details r w :
  valid_details details = true →
  signUp details r w =
    (isAdmin ← isAdminUser ;
     u ← getUser ;
     (if bool_decide (is_Some u) && negb isAdmin
      then
        user ← getUser ;
        setUser None ;;
        eventCallback "signout" (Payload "signup" user None)
      else skip) ;;
     details ← api (ApiSignUp (VObj details) (negb isAdmin)) r ;
     if (isAdmin : bool)
     then mret (Created (details_user details))
     else res ← signedIn "signup" details ; mret (SignedUp res)) w.
Proof.
  unfold valid_details, signUp. intros H.
  destruct (truthy (prop details "username")), (truthy (prop details "email")),
    (truthy (prop details "password")); cbn in H |- *; done.
Qed.

Lemma signUp_admin details r w :
  valid_details details = true →
  is_admin w = true →
  signUp details r w =
    (match r with
     | Fulfilled d => Fulfilled (Created (details_user d))
     | Rejected e => Rejected e
     end,
     World (this w) (store w)
       (log w ++ [Call (ApiSignUp (VObj details) false)])).
Proof.
  intros Hv Ha. rewrite signUp_valid by done.
  unfold mbind at 1, M_bind at 1. rewrite isAdminUser_run, Ha.
  run_M. cbn [negb]. rewrite andb_false_r. by destruct r.
Qed.

Lemma signUp_signed_out details r w :
  valid_details details = true →
  user (this w) = None →
  signUp details r w =
    let l := length (store w) in
    match r with
    | Fulfilled d =>
        (Fulfilled (SignedUp {| signed_user := Some l;
                                signed_accessToken := details_accessToken d |}),
         World (Session (Some l) (details_accessToken d))
           (store w ++ [AceBaseUser (details_user d)])
           (log w ++ [Call (ApiSignUp (VObj details) true);
                      Event "signin"
                        (Payload "signup" (Some l)
                           (Some (details_accessToken d)))]))
    | Rejected e =>
        (Rejected e,
         World (this w) (store w)
           (log w ++ [Call (ApiSignUp (VObj details) true)]))
    end.
Proof.
  intros Hv Hu. rewrite signUp_valid by done.
  unfold mbind at 1, M_bind at 1. rewrite isAdminUser_run.
  unfold is_admin. rewrite Hu. run_M. rewrite Hu.
  rewrite bool_decide_eq_false_2 by (by intros [? ?]). cbn [andb negb].
  destruct r; run_M; [same_log | done].
Qed.

Lemma signUp_user details r w l :
  valid_details details = true →
  user (this w) = Some l →
  is_admin w = false →
  signUp details r w =
    let l' := length (store w) in
    let signout := Event "signout" (Payload "signup" (Some l) None) in
    match r with
    | Fulfilled d =>
        (Fulfilled (SignedUp {| signed_user := Some l';
                                signed_accessToken := details_accessToken d |}),
         World (Session (Some l') (details_accessToken d))
           (store w ++ [AceBaseUser (details_user d)])
           (log w ++ [signout;
                      Call (ApiSignUp (VObj details) true);
                      Event "signin"
                        (Payload "signup" (Some l')
                           (Some (details_accessToken d)))]))
    | Rejected e =>
        (Rejected e,
         World (Session None (accessToken (this w))) (store w)
           (log w ++ [signout; Call (ApiSignUp (VObj details) true)]))
    end.
Proof.
  intros Hv Hu Ha. rewrite signUp_valid by done.
  unfold mbind at 1, M_bind at 1. rewrite isAdminUser_run, Ha.
  run_M. rewrite Hu.
  rewrite bool_decide_eq_true_2 by eauto. cbn [andb negb].
  destruct r; run_M; rewrite ?Hu; same_log.
Qed.

(** ** deleteAccount *)

Lemma uid_of_lookup w l (o : user_object) :
  store w !! l = Some o → uid_of w l = uid_of_user o.
Proof. unfold uid_of. by intros ->. Qed.

Lemma is_admin_user w l :
  user (this w) = Some l → is_admin w = is_string (uid_of w l) "admin".
Proof. unfold is_admin. by intros ->. Qed.

Lemma deleteAccount_signed_out uid r w :
  user (this w) = None → deleteAccount uid r w = (Rejected not_signed_in, w).
Proof. intros H. run_M. by rewrite H. Qed.

Lemma deleteAccount_not_admin uid r w l :
  user (this w) = Some l →
  truthy uid = true →
  is_string (uid_of w l) "admin" = false →
  deleteAccount uid r w = (Rejected not_admin, w).
Proof.
  intros Hu Ht Ha. run_M. rewrite Hu. fold (uid_of w l). by rewrite Ht, Ha.
Qed.

Lemma deleteAccount_not_allowed uid r w l :
  user (this w) = Some l →
  truthy uid && negb (is_string (uid_of w l) "admin") = false →
  is_string (js_or uid (uid_of w l)) "admin" = true →
  deleteAccount uid r w = (Rejected not_allowed, w).
Proof.
  intros Hu Hg Ht. run_M. rewrite Hu. fold (uid_of w l). by rewrite Hg, Ht.
Qed.

Lemma deleteAccount_asks uid r w l :
  user (this w) = Some l →
  truthy uid && negb (is_string (uid_of w l) "admin") = false →
  is_string (js_or uid (uid_of w l)) "admin" = false →
  deleteAccount uid r w =
    let signOut := negb (is_string (uid_of w l) "admin") in
    let call := Call (ApiDeleteAccount (js_or uid (uid_of w l)) signOut) in
    match r with
    | Rejected e => (Rejected e, World (this w) (store w) (log w ++ [call]))
    | Fulfilled _ =>
        if signOut
        then
          (Fulfilled (),
           World (Session None VNull) (store w)
             (log w ++ [call;
                        Event "signout"
                          (Payload "delete_account" (Some l) None)]))
        else (Fulfilled (), World (this w) (store w) (log w ++ [call]))
    end.
Proof.
  intros Hu Hg Ht. run_M. rewrite Hu. fold (uid_of w l). rewrite Hg, Ht.
  destruct r; [|done].
  destruct (is_string (uid_of w l) "admin"); cbn [negb]; [done|].
  run_M. rewrite Hu. same_log.
Qed.

(** ** Sequences of calls *)

Lemma void_run {A} (m : M A) w :
  void m w =
    (match (m w).1 with
     | Fulfilled _ => Fulfilled ()
     | Rejected e => Rejected e
     end, (m w).2).
Proof.
  unfold void, skip, mbind, mret, M_bind, M_ret. by destruct (m w) as [[] ?].
Qed.

(** Every way a call can go, each with the world it leaves behind. *)
Ltac detail_cases details r w :=
  let Hu := fresh "Hu" in
  let Hty := fresh "Hty" in
  destruct (user (this w)) as [?l|] eqn:Hu;
  [ destruct (decide (typeof details = "object")) as [Hty|Hty];
    [ destruct r;
      [ rewrite (updateUserDetails_fulfilled _ _ _ _ Hu Hty)
      | rewrite (updateUserDetails_rejected _ _ _ (mk_is_Some _ _ Hu) Hty) ]
    | rewrite (updateUserDetails_not_object _ _ _ (mk_is_Some _ _ Hu) Hty) ]
  | rewrite (updateUserDetails_signed_out _ _ _ Hu) ].

Ltac wrapper_cases r w :=
  let Hu := fresh "Hu" in
  destruct (user (this w)) as [?l|] eqn:Hu;
  [ destruct r;
    [ rewrite (updateUserDetails_fulfilled (VObj _) _ _ _ Hu eq_refl)
    | rewrite (updateUserDetails_rejected (VObj _) _ _
                 (mk_is_Some _ _ Hu) eq_refl) ]
  | rewrite (updateUserDetails_signed_out _ _ _ Hu) ].

Ltac perform_cases q w :=
  let Hu := fresh "Hu" in
  let Hv := fresh "Hv" in
  let Ha := fresh "Ha" in
  let Hg := fresh "Hg" in
  let Ht := fresh "Ht" in
  destruct q as [? ? r|? ? r|? r|? r|? ? r|? r|? ? r
                |details r|? r|? r|? r|details r|uid r];
  cbn [perform]; rewrite ?void_run;
  [ destruct r;
    [ rewrite (proj1 (signIn_fulfilled _ _ _ w)) | rewrite signIn_rejected ]
  | destruct r;
    [ rewrite (proj1 (signInWithEmail_fulfilled _ _ _ w))
    | rewrite signInWithEmail_rejected ]
  | destruct r;
    [ rewrite (proj1 (signInWithToken_fulfilled _ _ w))
    | rewrite signInWithToken_rejected ]
  | destruct (user (this w)) as [?l|] eqn:Hu;
    [ destruct r;
      [ rewrite (signOut_fulfilled _ _ _ (mk_is_Some _ _ Hu))
      | rewrite (signOut_rejected _ _ _ (mk_is_Some _ _ Hu)) ]
    | rewrite (signOut_signed_out _ _ _ Hu) ]
  | destruct (user (this w)) as [?l|] eqn:Hu;
    [ destruct r;
      [ rewrite (changePassword_fulfilled _ _ _ _ _ Hu)
      | rewrite (changePassword_rejected _ _ _ _ _ Hu) ]
    | rewrite (changePassword_signed_out _ _ _ _ Hu) ]
  | rewrite forgotPassword_run; destruct r
  | rewrite resetPassword_run; destruct r
  | detail_cases details r w
  | unfold changeUsername; wrapper_cases r w
  | unfold changeEmail; wrapper_cases r w
  | unfold updateUserSettings; wrapper_cases r w
  | destruct (valid_details details) eqn:Hv;
    [ destruct (user (this w)) as [?l|] eqn:Hu;
      [ destruct (is_admin w) eqn:Ha;
        [ rewrite (signUp_admin _ _ _ Hv Ha)
        | rewrite (signUp_user _ _ _ _ Hv Hu Ha) ]
      | rewrite (signUp_signed_out _ _ _ Hv Hu) ];
      destruct r
    | destruct (signUp_invalid details r w Hv) as [?message ->] ]
  | destruct (user (this w)) as [?l|] eqn:Hu;
    [ destruct (truthy uid && negb (is_string (uid_of w l) "admin")) eqn:Hg;
      [ apply andb_true_iff in Hg as [Hg Ha]; apply negb_true_iff in Ha;
        rewrite (deleteAccount_not_admin _ _ _ _ Hu Hg Ha)
      | destruct (is_string (js_or uid (uid_of w l)) "admin") eqn:Ht;
        [ rewrite (deleteAccount_not_allowed _ _ _ _ Hu Hg Ht)
        | rewrite (deleteAccount_asks _ _ _ _ Hu Hg Ht);
          destruct r; cbn zeta;
          [ destruct (is_string (uid_of w l) "admin") eqn:Ha; cbn [negb] | ] ] ]
    | rewrite (deleteAccount_signed_out _ _ _ Hu) ] ];
  cbn [fst snd this user accessToken store log].

Lemma perform_allocated q w :
  (∀ l, user (this w) = Some l → l < length (store w)) →
  ∀ l, user (this (perform q w).2) = Some l → l < length (store (perform q w).2).
Proof.
  intros Hw. perform_cases q w; intros l' Hl'; simplify_eq;
    rewrite ?length_app, ?length_alter; cbn [length]; try lia; auto.
Qed.

Lemma reachable_allocated w l :
  reachable w → user (this w) = Some l → l < length (store w).
Proof.
  intros Hr. revert l. induction Hr as [|w q _ IH _].
  - done.
  - by apply perform_allocated.
Qed.

Lemma perform_keeps_token q w :
  token_issued w q →
  (is_Some (user (this w)) → present (accessToken (this w)) = true) →
  is_Some (user (this (perform q w).2)) →
  present (accessToken (this (perform q w).2)) = true.
Proof.
  intros Hq Hw. revert Hq. perform_cases q w; cbn [token_issued];
    intros Hq [l' Hl']; simplify_eq; rewrite <- ?Hu in *; eauto.
  apply Hq. unfold is_admin. by rewrite Hu.
Qed.

(** ** The claims *)

(** C1 (amended).  A call that is rejected, by a failed call of the remote
    API or by a local check, leaves the store of user objects and the access
    token as they were.  It leaves the user as it was too, except where the
    method drops the user before it asks the remote API: the three sign-in
    methods always, and signUp with valid details when a user other than the
    admin is signed in; after those the user is absent. *)
Theorem rejected_call_frame q w e w' :
  perform q w = (Rejected e, w') →
  store w' = store w
  ∧ accessToken (this w') = accessToken (this w)
  ∧ user (this w') = if clears_user w q then None else user (this w).
Proof.
  revert e w'. perform_cases q w; intros e' w' H; simplify_eq;
    cbn [clears_user this user accessToken store log];
    rewrite ?Hv, ?Hu, ?Ha; cbn [andb negb]; try done.
  all: by rewrite ?bool_decide_eq_true_2 by eauto.
Qed.

(** C2 (amended).  In every world reachable from a new adapter by calls of
    its methods, failed ones included, against a remote API that issues a
    token with every sign-in, change of password and sign-up into the new
    account, a present user comes with a present access token.  (The
    converse fails: see [token_without_user].) *)
Theorem reachable_user_has_token w :
  reachable w →
  is_Some (user (this w)) →
  present (accessToken (this w)) = true.
Proof.
  induction 1 as [|w q _ IH Hq].
  - by intros [? ?].
  - by apply perform_keeps_token.
Qed.

(** C3 (amended).  With a user signed in, whose uid is [caller]:
    deleteAccount(uid) is rejected with code not_admin when uid is truthy
    (given and not the empty string) and the caller is not 'admin';
    otherwise, the target being uid when it is truthy and the caller's uid
    when it is not, the call is rejected with code not_allowed when the
    target is 'admin'; otherwise the remote API is asked to delete the
    target, with the sign-out flag true exactly when the caller is not
    'admin', and on success the session is cleared and a signout event
    tagged delete_account is sent exactly when that flag is true. *)
Theorem deleteAccount_guards w l (o : user_object) uid r :
  user (this w) = Some l →
  store w !! l = Some o →
  let caller := uid_of_user o in
  let target := js_or uid caller in
  let flag := negb (is_string caller "admin") in
  let call := Call (ApiDeleteAccount target flag) in
  code_of not_admin = VStr "not_admin"
  ∧ code_of not_allowed = VStr "not_allowed"
  ∧ (truthy uid = true → is_string caller "admin" = false →
     deleteAccount uid r w = (Rejected not_admin, w))
  ∧ (truthy uid && negb (is_string caller "admin") = false →
     is_string target "admin" = true →
     deleteAccount uid r w = (Rejected not_allowed, w))
  ∧ (truthy uid && negb (is_string caller "admin") = false →
     is_string target "admin" = false →
     deleteAccount uid r w =
       match r with
       | Rejected e => (Rejected e, World (this w) (store w) (log w ++ [call]))
       | Fulfilled _ =>
           if flag
           then
             (Fulfilled (),
              World (Session None VNull) (store w)
                (log w ++ [call;
                           Event "signout"
                             (Payload "delete_account" (Some l) None)]))
           else (Fulfilled (), World (this w) (store w) (log w ++ [call]))
       end).
Proof.
  intros Hu Ho. cbn zeta. rewrite <- (uid_of_lookup _ _ _ Ho).
  repeat split.
  - intros. by apply deleteAccount_not_admin with l.
  - intros. by apply deleteAccount_not_allowed with l.
  - intros. by rewrite (deleteAccount_asks _ _ _ l).
Qed.

(** C4.  With the admin signed in and valid details, signUp asks the remote
    API to sign up with the flag false (the flag is the negation of "the
    caller is the admin"), and on success resolves with the new user alone,
    leaves the admin's user and token as they were, and sends no event. *)
Theorem signUp_by_admin w l (o : user_object) details d :
  user (this w) = Some l →
  store w !! l = Some o →
  uid_of_user o = VStr "admin" →
  valid_details details = true →
  signUp details (Fulfilled d) w =
    (Fulfilled (Created (details_user d)),
     World (this w) (store w)
       (log w ++ [Call (ApiSignUp (VObj details) false)])).
Proof.
  intros Hu Ho Ha Hv. rewrite (signUp_admin _ _ _ Hv); [done|].
  by rewrite (is_admin_user _ _ Hu), (uid_of_lookup _ _ _ Ho), Ha.
Qed.

(** C5 (amended).  With a user other than the admin signed in and valid
    details, signUp first drops the user (the access token stays) and sends
    a signout event tagged signup that carries the previous user, then asks
    the remote API.  When that call fails nothing more happens: the user
    stays absent and the old token stays.  When it succeeds the session
    holds the new token and the new user, and a signin event tagged signup
    follows the signout event. *)
Theorem signUp_signs_out_first w l (o : user_object) details r :
  user (this w) = Some l →
  store w !! l = Some o →
  is_string (uid_of_user o) "admin" = false →
  valid_details details = true →
  let signout := Event "signout" (Payload "signup" (Some l) None) in
  let call := Call (ApiSignUp (VObj details) true) in
  let l' := length (store w) in
  signUp details r w =
    match r with
    | Rejected e =>
        (Rejected e,
         World (Session None (accessToken (this w))) (store w)
           (log w ++ [signout; call]))
    | Fulfilled d =>
        (Fulfilled (SignedUp {| signed_user := Some l';
                                signed_accessToken := details_accessToken d |}),
         World (Session (Some l') (details_accessToken d))
           (store w ++ [AceBaseUser (details_user d)])
           (log w ++ [signout; call;
                      Event "signin"
                        (Payload "signup" (Some l')
                           (Some (details_accessToken d)))]))
    end.
Proof.
  intros Hu Ho Ha Hv. cbn zeta. rewrite (signUp_user _ _ _ l Hv Hu).
  - by destruct r.
  - by rewrite (is_admin_user _ _ Hu), (uid_of_lookup _ _ _ Ho).
Qed.


(** C6.  For signIn, signInWithEmail and signInWithToken and every
    successful answer [{ accessToken, user }] of the remote API: the session
    holds that token and a new AceBaseUser built from that profile, the log
    grows by the call of the API and one signin event, tagged signin,
    email_signin and token_signin respectively, that carries that user and
    token, and the promise resolves with that user and token. *)
Theorem sign_in_success d :
  (∀ username password,
     signs_in (signIn username password (Fulfilled d))
       (ApiSignIn username password) "signin" d)
  ∧ (∀ email password,
       signs_in (signInWithEmail email password (Fulfilled d))
         (ApiSignInWithEmail email password) "email_signin" d)
  ∧ (∀ token,
       signs_in (signInWithToken token (Fulfilled d))
         (ApiSignInWithToken token) "token_signin" d).
Proof.
  split_and!; intros.
  - apply signIn_fulfilled.
  - apply signInWithEmail_fulfilled.
  - apply signInWithToken_fulfilled.
Qed.

(** C7.  With a user signed in, a successful changePassword leaves the user
    reference and the store, hence the user object and its fields, as they
    were, stores the token the remote API returned, resolves with that token
    and sends a signin event tagged password_change. *)
Theorem changePassword_keeps_user w l (o : user_object) oldPassword newPassword d :
  user (this w) = Some l →
  store w !! l = Some o →
  let t := password_accessToken d in
  let w' := (changePassword oldPassword newPassword (Fulfilled d) w).2 in
  (changePassword oldPassword newPassword (Fulfilled d) w).1
    = Fulfilled {| new_accessToken := t |}
  ∧ user (this w') = Some l
  ∧ store w' = store w
  ∧ store w' !! l = Some o
  ∧ accessToken (this w') = t
  ∧ log w' =
      log w ++ [Call (ApiChangePassword (uid_of_user o) oldPassword newPassword);
                Event "signin" (Payload "password_change" (Some l) (Some t))].
Proof.
  intros Hu Ho. cbn zeta.
  rewrite (changePassword_fulfilled _ _ _ _ _ Hu), (uid_of_lookup _ _ _ Ho).
  by split_and!.
Qed.



(** C10.  With no user, signOut, changePassword, changeUsername,
    changeEmail, updateUserSettings and deleteAccount are rejected with code
    not_signed_in, and the world is the one before the call: no call of the
    remote API, no event, the session as it was. *)
Theorem signed_out_rejects w :
  user (this w) = None →
  code_of not_signed_in = VStr "not_signed_in"
  ∧ (∀ everywhere r, signOut everywhere r w = (Rejected not_signed_in, w))
  ∧ (∀ oldPassword newPassword r,
       changePassword oldPassword newPassword r w = (Rejected not_signed_in, w))
  ∧ (∀ newUsername r,
       changeUsername newUsername r w = (Rejected not_signed_in, w))
  ∧ (∀ newEmail r, changeEmail newEmail r w = (Rejected not_signed_in, w))
  ∧ (∀ settings r,
       updateUserSettings settings r w = (Rejected not_signed_in, w))
  ∧ (∀ uid r, deleteAccount uid r w = (Rejected not_signed_in, w)).
Proof.
  intros Hu. split_and!; [done|intros..].
  - by apply signOut_signed_out.
  - by apply changePassword_signed_out.
  - by apply updateUserDetails_signed_out.
  - by apply updateUserDetails_signed_out.
  - by apply updateUserDetails_signed_out.
  - by apply deleteAccount_signed_out.
Qed.


(** ** Further properties of the methods *)

Lemma events_app acts1 acts2 :
  events (acts1 ++ acts2) = events acts1 ++ events acts2.
Proof. apply omap_app. Qed.

Lemma calls_app acts1 acts2 :
  calls (acts1 ++ acts2) = calls acts1 ++ calls acts2.
Proof. apply omap_app. Qed.

(** Whatever holds of a world and is kept by every call holds after any
    sequence of calls. *)
Lemma run_invariant (P : world → Prop) :
  (∀ q w, P w → P (perform q w).2) →
  ∀ qs w, P w → P (run qs w).
Proof.
  intros Hstep qs. induction qs as [|q qs IH]; intros w Hw; [done|].
  apply IH, Hstep, Hw.
Qed.

(** X1.  With a user signed in, a successful signOut passes its argument
    to the remote API, leaves the session with no user and the token null,
    as in a new adapter, keeps the store, and sends one signout event
    tagged signout that carries the user who was signed in. *)
Theorem signOut_clears_session w l everywhere v :
  user (this w) = Some l →
  signOut everywhere (Fulfilled v) w =
    (Fulfilled (),
     World (this constructor) (store w)
       (log w ++ [Call (ApiSignOut everywhere);
                  Event "signout" (Payload "signout" (Some l) None)])).
Proof.
  intros Hu. rewrite signOut_fulfilled by eauto. by rewrite Hu.
Qed.

(** X2.  signUp refuses details without a truthy username or email, and
    details without a truthy password, with code invalid_details, the first
    check taking precedence; the world is untouched, so that a signed-in
    user stays signed in, no event is sent and the remote API is not
    asked. *)
Theorem signUp_invalid_details details r w :
  valid_details details = false →
  code_of (invalid_details "No username or email set") = VStr "invalid_details"
  ∧ code_of (invalid_details "No password given") = VStr "invalid_details"
  ∧ signUp details r w =
      (Rejected
         (invalid_details
            (if truthy (prop details "username")
                || truthy (prop details "email")
             then "No password given"
             else "No username or email set")),
       w).
Proof.
  unfold valid_details, signUp. intros H. split_and!; [done..|].
  destruct (truthy (prop details "username")), (truthy (prop details "email")),
    (truthy (prop details "password")); cbn in H |- *; done.
Qed.

(** X3.  With no user signed in and valid details, signUp sends no signout
    event and asks the remote API with the flag true.  When the API
    refuses, the promise is rejected with its reason and nothing but the
    call is recorded; when it succeeds the session holds the new token and
    a new user, one signin event tagged signup is sent and the promise
    resolves with both. *)
Theorem signUp_while_signed_out details r w :
  user (this w) = None →
  valid_details details = true →
  let l := length (store w) in
  let call := Call (ApiSignUp (VObj details) true) in
  signUp details r w =
    match r with
    | Rejected e =>
        (Rejected e, World (this w) (store w) (log w ++ [call]))
    | Fulfilled d =>
        (Fulfilled (SignedUp {| signed_user := Some l;
                                signed_accessToken := details_accessToken d |}),
         World (Session (Some l) (details_accessToken d))
           (store w ++ [AceBaseUser (details_user d)])
           (log w ++ [call;
                      Event "signin"
                        (Payload "signup" (Some l)
                           (Some (details_accessToken d)))]))
    end.
Proof.
  intros Hu Hv. cbn zeta. rewrite (signUp_signed_out _ _ _ Hv Hu).
  by destruct r.
Qed.

(** X4.  With a user signed in, the internal detail update refuses every
    payload whose typeof is not 'object' (undefined, a boolean, a number, a
    string) with code invalid_details, and leaves the world untouched: the
    remote API is not asked. *)
Theorem updateUserDetails_refuses_non_object details r w :
  is_Some (user (this w)) →
  typeof details ≠ "object" →
  code_of (invalid_details "details must be an object") = VStr "invalid_details"
  ∧ _updateUserDetails details r w =
      (Rejected (invalid_details "details must be an object"), w).
Proof.
  intros Hu Hty. split; [done|]. by apply updateUserDetails_not_object.
Qed.

(** X5.  forgotPassword, resetPassword, the internal detail update and
    changeUsername, changeEmail and updateUserSettings never change the
    session (user and token) and never call the event callback, however
    the call goes. *)
Theorem quiet_calls_keep_session q w :
  quiet q = true →
  this (perform q w).2 = this w
  ∧ events (log (perform q w).2) = events (log w).
Proof.
  intros Hq. revert Hq.
  perform_cases q w; cbn [quiet]; intros Hq; try done;
    rewrite ?events_app; cbn [events omap list_omap]; by rewrite ?app_nil_r.
Qed.


(** X6.  Every call of a method goes one of two ways.  Either a local check
    refuses it: the promise is rejected with one of the adapter's four
    errors and the world is untouched.  Or the remote API is asked exactly
    once; then, when the API rejects, the promise is rejected with the
    reason of the API, unchanged, and the promise is never fulfilled unless
    the API fulfilled. *)
Theorem refused_or_asked_once q w :
  (∃ e, perform q w = (Rejected e, w) ∧ local_error e)
  ∨ (∃ acts c,
       log (perform q w).2 = log w ++ acts
       ∧ calls acts = [c]
       ∧ (∀ e, answer q = Rejected e → (perform q w).1 = Rejected e)
       ∧ ((perform q w).1 = Fulfilled () → answer q = Fulfilled ())).
Proof.
  perform_cases q w.
  all: first
    [ right; do 2 eexists; split_and!;
      [reflexivity | reflexivity | intros e' He'; by simplify_eq | done]
    | left; eexists; split; [reflexivity|];
      unfold local_error; eauto 6 ].
Qed.

(** X7.  A user object that is not the current user's is never written by
    any call: what an earlier event or result handed out and the adapter
    has dropped since keeps its properties. *)
Theorem other_objects_untouched q w i (o : user_object) :
  store w !! i = Some o →
  user (this w) ≠ Some i →
  store (perform q w).2 !! i = Some o.
Proof.
  intros Ho. revert Ho.
  perform_cases q w; intros Ho Hi; try done;
    try (by apply lookup_app_l_Some).
  all: rewrite list_lookup_alter_ne; [done | congruence].
Qed.

(** X8.  The current user's object is written by the detail updates alone:
    every other call keeps every object of the store. *)
Theorem only_updates_write q w i (o : user_object) :
  store w !! i = Some o →
  is_update q = false →
  store (perform q w).2 !! i = Some o.
Proof.
  intros Ho. revert Ho.
  perform_cases q w; cbn [is_update]; intros Ho Hq; try done;
    by apply lookup_app_l_Some.
Qed.

(** X9.  After any sequence of calls on a new adapter, a current user
    refers to an object of the store. *)
Theorem current_user_allocated qs :
  ∀ l, user (this (run qs constructor)) = Some l →
       is_Some (store (run qs constructor) !! l).
Proof.
  intros l Hl. apply lookup_lt_is_Some. revert l Hl.
  apply (run_invariant
    (λ w, ∀ l, user (this w) = Some l → l < length (store w))).
  - intros q w. apply perform_allocated.
  - done.
Qed.


(** ** Who may be deleted, and what sign-up tells the remote API *)

Lemma nothing_logged (acts0 acts : list action) :
  acts0 = acts0 ++ acts → acts = [].
Proof.
  intros H. apply (app_inv_head acts0). by rewrite app_nil_r.
Qed.

(** X13.  Whatever its argument, deleteAccount never asks the remote API to
    delete the account 'admin'.  A caller other than the admin can only
    have its own account deleted, with the sign-out flag true; the admin
    has the account of the truthy uid it gave deleted, with the flag
    false. *)
Theorem deleteAccount_targets w l uid r acts target flag :
  user (this w) = Some l →
  log (deleteAccount uid r w).2 = log w ++ acts →
  Call (ApiDeleteAccount target flag) ∈ acts →
  is_string target "admin" = false
  ∧ (if is_string (uid_of w l) "admin"
     then target = uid ∧ truthy uid = true ∧ flag = false
     else target = uid_of w l ∧ flag = true).
Proof.
  intros Hu.
  destruct (truthy uid && negb (is_string (uid_of w l) "admin")) eqn:Hg.
  { apply andb_true_iff in Hg as [Hg Ha]. apply negb_true_iff in Ha.
    rewrite (deleteAccount_not_admin _ _ _ _ Hu Hg Ha).
    intros Hlog Hin. apply nothing_logged in Hlog as ->.
    by apply elem_of_nil in Hin. }
  destruct (is_string (js_or uid (uid_of w l)) "admin") eqn:Ht.
  { rewrite (deleteAccount_not_allowed _ _ _ _ Hu Hg Ht).
    intros Hlog Hin. apply nothing_logged in Hlog as ->.
    by apply elem_of_nil in Hin. }
  rewrite (deleteAccount_asks _ _ _ _ Hu Hg Ht). cbn zeta.
  assert (Call (ApiDeleteAccount target flag) ∈
            [Call (ApiDeleteAccount (js_or uid (uid_of w l))
                     (negb (is_string (uid_of w l) "admin")));
             Event "signout" (Payload "delete_account" (Some l) None)] →
          is_string target "admin" = false
          ∧ (if is_string (uid_of w l) "admin"
             then target = uid ∧ truthy uid = true ∧ flag = false
             else target = uid_of w l ∧ flag = true)) as Hcall.
  { rewrite elem_of_cons, list_elem_of_singleton. intros [Heq|Heq]; [|done].
    injection Heq as -> ->. split; [done|]. unfold js_or in *.
    destruct (is_string (uid_of w l) "admin") eqn:Ha, (truthy uid);
      cbn in *; try done; congruence. }
  destruct r as [v|e]; [destruct (negb (is_string (uid_of w l) "admin"))|];
    cbn [snd log]; intros Hlog Hin; apply app_inv_head in Hlog as <-;
    apply Hcall; rewrite elem_of_cons, list_elem_of_singleton;
    revert Hin; rewrite ?elem_of_cons, elem_of_nil; tauto.
Qed.

(** X14.  Whenever signUp asks the remote API, the details are the valid
    ones it was given and the flag tells whether to sign into the new
    account: it is false exactly when the admin is signed in. *)
Theorem signUp_asks w details r acts payload flag :
  log (signUp details r w).2 = log w ++ acts →
  Call (ApiSignUp payload flag) ∈ acts →
  payload = VObj details
  ∧ valid_details details = true
  ∧ flag = negb (is_admin w).
Proof.
  destruct (valid_details details) eqn:Hv.
  - destruct (user (this w)) as [l|] eqn:Hu; [destruct (is_admin w) eqn:Ha|].
    + rewrite (signUp_admin _ _ _ Hv Ha). cbn [snd log].
      intros Hlog Hin. apply app_inv_head in Hlog as <-.
      apply list_elem_of_singleton in Hin. by simplify_eq.
    + rewrite (signUp_user _ _ _ _ Hv Hu Ha). cbn zeta.
      destruct r; cbn [snd log]; intros Hlog Hin;
        apply app_inv_head in Hlog as <-;
        repeat (apply elem_of_cons in Hin as [Hin|Hin]; [by simplify_eq|]);
        by apply elem_of_nil in Hin.
    + assert (is_admin w = false) as -> by (unfold is_admin; by rewrite Hu).
      rewrite (signUp_signed_out _ _ _ Hv Hu). cbn zeta.
      destruct r; cbn [snd log]; intros Hlog Hin;
        apply app_inv_head in Hlog as <-;
        repeat (apply elem_of_cons in Hin as [Hin|Hin]; [by simplify_eq|]);
        by apply elem_of_nil in Hin.
  - destruct (signUp_invalid details r w Hv) as [message ->].
    intros Hlog Hin. apply nothing_logged in Hlog as ->.
    by apply elem_of_nil in Hin.
Qed.

(** ** Methods one after the other *)

(** X15.  A successful signIn followed by a successful signOut leaves the
    session as in a new adapter, whatever it was before; the user object
    built by the sign-in stays in the store, and the signout event carries
    the user that the signin event carried. *)
Theorem signIn_then_signOut w username password d everywhere v :
  let l := length (store w) in
  let w1 := (signIn username password (Fulfilled d) w).2 in
  signOut everywhere (Fulfilled v) w1 =
    (Fulfilled (),
     World (this constructor)
       (store w ++ [AceBaseUser (details_user d)])
       (log w ++ [Call (ApiSignIn username password);
                  Event "signin"
                    (Payload "signin" (Some l) (Some (details_accessToken d)));
                  Call (ApiSignOut everywhere);
                  Event "signout" (Payload "signout" (Some l) None)])).
Proof.
  cbn zeta. rewrite (proj1 (signIn_fulfilled username password d w)).
  rewrite signOut_fulfilled by (by eexists). cbn [fst snd this user store log].
  by rewrite <- app_assoc.
Qed.

(** X16.  Two successful detail updates in a row merge in their order into
    the same user object: under every name but '__proto__', an own property
    has the value of the second answer if that has it, else the value of the
    first answer if that has it, else the value it had or none; the session
    is as it was. *)
Theorem updates_compose w l (o : user_object) details1 details2 d1 d2 :
  user (this w) = Some l →
  store w !! l = Some o →
  typeof details1 = "object" →
  typeof details2 = "object" →
  let w1 := (_updateUserDetails details1 (Fulfilled d1) w).2 in
  let w2 := (_updateUserDetails details2 (Fulfilled d2) w1).2 in
  ∃ o2 : user_object,
    store w2 = <[l := o2]> (store w)
    ∧ this w2 = this w
    ∧ ∀ k, k ≠ "__proto__" →
        own o2 !! k =
          match result_user d2 !! k with
          | Some v => Some v
          | None =>
              match result_user d1 !! k with
              | Some v => Some v
              | None => own o !! k
              end
          end.
Proof.
  intros Hu Ho Hty1 Hty2. cbn zeta.
  rewrite (updateUserDetails_fulfilled _ _ _ _ Hu Hty1). cbn [snd].
  rewrite (updateUserDetails_fulfilled _ _ _ l) by done.
  cbn [snd this store log].
  exists (assign (assign o (map_to_list (result_user d1)))
            (map_to_list (result_user d2))).
  split_and!; [|done|].
  - rewrite list_alter_alter_eq. apply list_eq. intros i.
    destruct (decide (l = i)) as [<-|Hne].
    + rewrite list_lookup_alter_eq, Ho.
      by rewrite list_lookup_insert_eq by by eapply lookup_lt_Some.
    + by rewrite list_lookup_alter_ne, list_lookup_insert_ne.
  - intros k Hk. by rewrite !assign_map_lookup.
Qed.


(** ** What the listener is told *)

Lemma perform_last_event q w :
  (∀ l, user (this w) = Some l →
     ∃ tag, last (events (log w)) =
       Some ("signin", Payload tag (Some l) (Some (accessToken (this w))))) →
  ∀ l, user (this (perform q w).2) = Some l →
     ∃ tag, last (events (log (perform q w).2)) =
       Some ("signin",
             Payload tag (Some l) (Some (accessToken (this (perform q w).2)))).
Proof.
  intros HP. perform_cases q w; intros l' Hl'; simplify_eq;
    rewrite ?events_app; cbn [events omap list_omap]; rewrite ?app_nil_r;
    try (by apply HP);
    try (rewrite last_app_cons; cbn [last]; by eexists).
Qed.

Lemma perform_event_counts q w :
  (count_events "signout" (log w) + signed_in_count w
     ≤ count_events "signin" (log w))%nat →
  (count_events "signout" (log (perform q w).2)
     + signed_in_count (perform q w).2
   ≤ count_events "signin" (log (perform q w).2))%nat.
Proof.
  unfold signed_in_count.
  perform_cases q w; rewrite ?count_events_app; rewrite ?Hu;
    cbn [count_events List.filter is_event length String.eqb Ascii.eqb
         Bool.eqb Nat.add];
    destruct (user (this w)); lia.
Qed.


(** X10.  After any sequence of calls on a new adapter, while a user is
    signed in the last event sent is a signin event that carries the
    current user and the current token: a listener that keeps the last
    event knows both. *)
Theorem last_event_tells_session qs :
  ∀ l, user (this (run qs constructor)) = Some l →
    ∃ tag, last (events (log (run qs constructor))) =
      Some ("signin",
            Payload tag (Some l)
              (Some (accessToken (this (run qs constructor))))).
Proof.
  apply (run_invariant (λ w, ∀ l, user (this w) = Some l →
    ∃ tag, last (events (log w)) =
      Some ("signin", Payload tag (Some l) (Some (accessToken (this w)))))).
  - apply perform_last_event.
  - done.
Qed.

(** X11.  When the calls on a new adapter are made one after the other,
    each settled before the next is made, the signout events sent are at
    most as many as the signin events, and fewer while a user is signed in:
    no sign-out is reported without a sign-in before it. *)
Theorem signouts_follow_signins qs :
  (count_events "signout" (log (run qs constructor))
     + signed_in_count (run qs constructor)
   ≤ count_events "signin" (log (run qs constructor)))%nat.
Proof.
  apply (run_invariant (λ w,
    (count_events "signout" (log w) + signed_in_count w
       ≤ count_events "signin" (log w))%nat)).
  - apply perform_event_counts.
  - done.
Qed.


End Auth.

(** * Closed instances *)

(** The sample world is what a sign-in on a new adapter leaves. *)
Lemma signed_in_as_bob :
  (perform copy_profile
     (SignIn (VStr "bob") (VStr "secret")
        (Fulfilled {| details_accessToken := VStr "t1";
                      details_user := VObj bob |}))
     constructor).2 = signed_in_as bob.
Proof. vm_compute. reflexivity. Qed.

Lemma signed_in_as_bob_reachable : reachable copy_profile (signed_in_as bob).
Proof.
  rewrite <- signed_in_as_bob.
  apply reachable_perform; [apply reachable_constructor | reflexivity].
Qed.

(** C1, as stated, fails: signed in as bob with the token t1, a signIn that
    the remote API refuses is rejected and leaves the session without its
    user; the session is not the one before the call. *)
Lemma signIn_rejected_changes_session :
  let call := signIn copy_profile (VStr "bob") (VStr "wrong") (Rejected refused) in
  this (signed_in_as bob) = Session (Some 0) (VStr "t1")
  ∧ (call (signed_in_as bob)).1 = Rejected refused
  ∧ this (call (signed_in_as bob)).2 = Session None (VStr "t1")
  ∧ this (call (signed_in_as bob)).2 ≠ this (signed_in_as bob).
Proof. split_and!; [reflexivity..|discriminate]. Qed.

Lemma rejected_call_frame_witness :
  let q := SignOut VUndefined (Rejected refused) in
  let w := signed_in_as bob in
  let w' := World (this w) (store w) (log w ++ [Call (ApiSignOut VUndefined)]) in
  perform copy_profile q w = (Rejected refused, w')
  ∧ store w' = store w
  ∧ accessToken (this w') = accessToken (this w)
  ∧ user (this w') = user (this w).
Proof.
  split; [reflexivity|].
  apply (rejected_call_frame copy_profile
           (SignOut VUndefined (Rejected refused)) (signed_in_as bob) refused).
  reflexivity.
Defined.

(** C2, as stated, fails: after a sign-in as bob and a second signIn that the
    remote API refuses, the adapter holds the token t1 and no user. *)
Lemma token_without_user :
  let w := (perform copy_profile
              (SignIn (VStr "bob") (VStr "wrong") (Rejected refused))
              (signed_in_as bob)).2 in
  reachable copy_profile w
  ∧ user (this w) = None
  ∧ accessToken (this w) = VStr "t1"
  ∧ ¬ paired (this w).
Proof.
  split_and!.
  - apply reachable_perform; [apply signed_in_as_bob_reachable | exact I].
  - reflexivity.
  - reflexivity.
  - intros [_ H]. by destruct (H eq_refl).
Qed.

Lemma reachable_user_has_token_witness :
  is_Some (user (this (signed_in_as bob)))
  ∧ present (accessToken (this (signed_in_as bob))) = true.
Proof.
  split; [by eexists|].
  apply (reachable_user_has_token copy_profile (signed_in_as bob)).
  - apply signed_in_as_bob_reachable.
  - by eexists.
Defined.

(** C3, as stated, fails on a uid that is given and falsy, the empty string.
    Signed in as bob, deleteAccount('') is not rejected with not_admin: the
    remote API is asked to delete bob's own account.  Signed in as admin,
    deleteAccount('') is rejected with not_allowed although the uid given is
    not 'admin'. *)
Lemma deleteAccount_empty_uid :
  VStr "" ≠ VUndefined
  ∧ is_string (uid_of_user (plain bob)) "admin" = false
  ∧ deleteAccount (VStr "") (Fulfilled VUndefined) (signed_in_as bob) =
      (Fulfilled (),
       World (Session None VNull) [plain bob]
         (log (signed_in_as bob) ++
            [Call (ApiDeleteAccount (VStr "bob") true);
             Event "signout" (Payload "delete_account" (Some 0) None)]))
  ∧ is_string (VStr "") "admin" = false
  ∧ deleteAccount (VStr "") (Fulfilled VUndefined) (signed_in_as admin) =
      (Rejected not_allowed, signed_in_as admin).
Proof. split_and!; [discriminate | vm_compute; reflexivity ..]. Qed.

Lemma deleteAccount_guards_witness :
  let w := signed_in_as bob in
  user (this w) = Some 0
  ∧ store w !! 0 = Some (plain bob)
  ∧ truthy (VStr "carol") = true
  ∧ is_string (uid_of_user (plain bob)) "admin" = false
  ∧ deleteAccount (VStr "carol") (Fulfilled VUndefined) w = (Rejected not_admin, w).
Proof.
  split_and!; [reflexivity..|].
  refine (proj1 (proj2 (proj2
    (deleteAccount_guards (signed_in_as bob) 0 (plain bob) (VStr "carol")
       (Fulfilled VUndefined) eq_refl eq_refl))) _ _); reflexivity.
Defined.

Lemma signUp_by_admin_witness :
  let w := signed_in_as admin in
  user (this w) = Some 0
  ∧ store w !! 0 = Some (plain admin)
  ∧ uid_of_user (plain admin) = VStr "admin"
  ∧ valid_details new_account = true
  ∧ signUp copy_profile new_account (Fulfilled account_created) w =
      (Fulfilled (Created (details_user account_created)),
       World (this w) (store w)
         (log w ++ [Call (ApiSignUp (VObj new_account) false)])).
Proof.
  split_and!; [reflexivity..|].
  apply (signUp_by_admin copy_profile (signed_in_as admin) 0 (plain admin));
    reflexivity.
Defined.

(** C5, as stated, fails where it says that the local sign-out clears the
    state: signed in as bob with the token t1, a signUp that the remote API
    refuses leaves the token t1 in the session. *)
Lemma signUp_rejected_keeps_token :
  let w := signed_in_as bob in
  let call := signUp copy_profile new_account (Rejected refused) in
  user (this w) = Some 0
  ∧ is_string (uid_of_user (plain bob)) "admin" = false
  ∧ valid_details new_account = true
  ∧ (call w).1 = Rejected refused
  ∧ accessToken (this (call w).2) = VStr "t1"
  ∧ this (call w).2 ≠ this constructor.
Proof. split_and!; [vm_compute; reflexivity..|discriminate]. Qed.

Lemma signUp_signs_out_first_witness :
  let w := signed_in_as bob in
  let signout := Event "signout" (Payload "signup" (Some 0) None) in
  let call := Call (ApiSignUp (VObj new_account) true) in
  user (this w) = Some 0
  ∧ store w !! 0 = Some (plain bob)
  ∧ is_string (uid_of_user (plain bob)) "admin" = false
  ∧ valid_details new_account = true
  ∧ signUp copy_profile new_account (Fulfilled account_created) w =
      (Fulfilled (SignedUp {| signed_user := Some 1;
                              signed_accessToken := VStr "t2" |}),
       World (Session (Some 1) (VStr "t2"))
         [plain bob; copy_profile (details_user account_created)]
         (log w ++ [signout; call;
                    Event "signin"
                      (Payload "signup" (Some 1) (Some (VStr "t2")))])).
Proof.
  split_and!; [reflexivity..|].
  apply (signUp_signs_out_first copy_profile (signed_in_as bob) 0 (plain bob)
           new_account (Fulfilled account_created)); reflexivity.
Defined.

Lemma changePassword_keeps_user_witness :
  let w := signed_in_as bob in
  let d := {| password_accessToken := VStr "t2" |} in
  let w' := (changePassword (VStr "secret") (VStr "hush") (Fulfilled d) w).2 in
  user (this w) = Some 0
  ∧ store w !! 0 = Some (plain bob)
  ∧ user (this w') = Some 0
  ∧ store w' !! 0 = Some (plain bob)
  ∧ accessToken (this w') = VStr "t2".
Proof.
  split_and!; [reflexivity..| | |];
    apply (changePassword_keeps_user (signed_in_as bob) 0 (plain bob)
             (VStr "secret") (VStr "hush") {| password_accessToken := VStr "t2" |}
             eq_refl eq_refl).
Defined.

(** C8 fails on the code at the argument null: signed in as bob,
    [_updateUserDetails(null)] is not rejected with invalid_details;
    [typeof null] is 'object', the check lets it through and the remote API
    is asked to update with null. *)
Theorem updateUserDetails_null_asks_api r :
  typeof VNull = "object"
  ∧ (_updateUserDetails VNull r (signed_in_as bob)).1 =
      match r with
      | Fulfilled _ => Fulfilled {| updated_user := Some 0 |}
      | Rejected e => Rejected e
      end
  ∧ log (_updateUserDetails VNull r (signed_in_as bob)).2 =
      log (signed_in_as bob) ++ [Call (ApiUpdateUserDetails VNull)].
Proof.
  split; [reflexivity|]. destruct r.
  - by rewrite (updateUserDetails_fulfilled VNull _ (signed_in_as bob) 0).
  - by rewrite (updateUserDetails_rejected VNull _ (signed_in_as bob))
      by by eexists.
Qed.



Lemma signed_out_rejects_witness :
  user (this constructor) = None
  ∧ signOut VUndefined (Fulfilled VUndefined) constructor =
      (Rejected not_signed_in, constructor).
Proof.
  split; [reflexivity|].
  apply (proj1 (proj2 (signed_out_rejects constructor eq_refl))).
Defined.

(** ** Instances of the further properties *)

Lemma signOut_clears_session_witness :
  let w := signed_in_as bob in
  user (this w) = Some 0
  ∧ signOut (VBool true) (Fulfilled VUndefined) w =
      (Fulfilled (),
       World (this constructor) (store w)
         (log w ++ [Call (ApiSignOut (VBool true));
                    Event "signout" (Payload "signout" (Some 0) None)])).
Proof.
  split; [reflexivity|].
  apply (signOut_clears_session (signed_in_as bob) 0). reflexivity.
Defined.

Lemma signUp_invalid_details_witness :
  let details : obj := {[ "password" := VStr "x" ]} in
  valid_details details = false
  ∧ signUp copy_profile details (Fulfilled account_created) (signed_in_as bob) =
      (Rejected (invalid_details "No username or email set"),
       signed_in_as bob).
Proof.
  split; [reflexivity|].
  refine (proj2 (proj2
    (signUp_invalid_details copy_profile {[ "password" := VStr "x" ]}
       (Fulfilled account_created) (signed_in_as bob) _))).
  reflexivity.
Defined.

Lemma signUp_while_signed_out_witness :
  user (this constructor) = None
  ∧ valid_details new_account = true
  ∧ signUp copy_profile new_account (Fulfilled account_created) constructor =
      (Fulfilled (SignedUp {| signed_user := Some 0;
                              signed_accessToken := VStr "t2" |}),
       World (Session (Some 0) (VStr "t2"))
         [copy_profile (details_user account_created)]
         [Call (ApiSignUp (VObj new_account) true);
          Event "signin" (Payload "signup" (Some 0) (Some (VStr "t2")))]).
Proof.
  split_and!; [reflexivity..|].
  apply (signUp_while_signed_out copy_profile new_account
           (Fulfilled account_created) constructor); reflexivity.
Defined.

Lemma updateUserDetails_refuses_non_object_witness :
  let w := signed_in_as bob in
  is_Some (user (this w))
  ∧ typeof (VStr "bobby") ≠ "object"
  ∧ _updateUserDetails (VStr "bobby") (Rejected refused) w =
      (Rejected (invalid_details "details must be an object"), w).
Proof.
  split_and!; [by eexists | discriminate |].
  apply (updateUserDetails_refuses_non_object (VStr "bobby")
           (Rejected refused) (signed_in_as bob));
    [by eexists | discriminate].
Defined.

Lemma quiet_calls_keep_session_witness :
  let q := ChangeEmail (VStr "bob@example.org")
             (Fulfilled {| result_user := {[ "email" := VStr "bob@example.org" ]} |}) in
  let w := signed_in_as bob in
  quiet q = true
  ∧ this (perform copy_profile q w).2 = this w
  ∧ events (log (perform copy_profile q w).2) = events (log w).
Proof.
  split; [reflexivity|].
  apply (quiet_calls_keep_session copy_profile). reflexivity.
Defined.

(** Two users: bob signed in first and dropped, then the account a. *)
Lemma other_objects_untouched_witness :
  let w := (signUp copy_profile new_account (Fulfilled account_created)
              (signed_in_as bob)).2 in
  let q := ChangeUsername (VStr "bobby")
             (Fulfilled {| result_user := {[ "username" := VStr "bobby" ]} |}) in
  store w !! 0 = Some (plain bob)
  ∧ user (this w) ≠ Some 0
  ∧ store (perform copy_profile q w).2 !! 0 = Some (plain bob).
Proof.
  split_and!; [reflexivity | discriminate |].
  apply (other_objects_untouched copy_profile); [reflexivity | discriminate].
Defined.

Lemma only_updates_write_witness :
  let w := signed_in_as bob in
  let q := ChangePassword (VStr "secret") (VStr "hush")
             (Fulfilled {| password_accessToken := VStr "t2" |}) in
  store w !! 0 = Some (plain bob)
  ∧ is_update q = false
  ∧ store (perform copy_profile q w).2 !! 0 = Some (plain bob).
Proof.
  split_and!; [reflexivity..|].
  apply (only_updates_write copy_profile); reflexivity.
Defined.

Lemma current_user_allocated_witness :
  let qs := [SignUp new_account (Fulfilled account_created)] in
  user (this (run copy_profile qs constructor)) = Some 0
  ∧ is_Some (store (run copy_profile qs constructor) !! 0).
Proof.
  split; [reflexivity|].
  apply (current_user_allocated copy_profile
           [SignUp new_account (Fulfilled account_created)] 0).
  reflexivity.
Defined.

Lemma last_event_tells_session_witness :
  let qs := [SignUp new_account (Fulfilled account_created);
             ChangePassword (VStr "x") (VStr "y")
               (Fulfilled {| password_accessToken := VStr "t3" |});
             ChangeEmail (VStr "a@example.org") (Rejected refused)] in
  user (this (run copy_profile qs constructor)) = Some 0
  ∧ ∃ tag, last (events (log (run copy_profile qs constructor))) =
      Some ("signin",
            Payload tag (Some 0)
              (Some (accessToken (this (run copy_profile qs constructor))))).
Proof.
  split; [reflexivity|].
  apply (last_event_tells_session copy_profile
           [SignUp new_account (Fulfilled account_created);
            ChangePassword (VStr "x") (VStr "y")
              (Fulfilled {| password_accessToken := VStr "t3" |});
            ChangeEmail (VStr "a@example.org") (Rejected refused)] 0).
  reflexivity.
Defined.

Lemma deleteAccount_targets_witness :
  let w := signed_in_as bob in
  let acts := [Call (ApiDeleteAccount (VStr "bob") true);
               Event "signout" (Payload "delete_account" (Some 0) None)] in
  user (this w) = Some 0
  ∧ log (deleteAccount VUndefined (Fulfilled VUndefined) w).2 = log w ++ acts
  ∧ Call (ApiDeleteAccount (VStr "bob") true) ∈ acts
  ∧ is_string (VStr "bob") "admin" = false
  ∧ VStr "bob" = uid_of w 0.
Proof.
  split_and!; [reflexivity | vm_compute; reflexivity | apply list_elem_of_here |..];
    (edestruct (deleteAccount_targets copy_profile (signed_in_as bob) 0
                  VUndefined (Fulfilled VUndefined)
                  [Call (ApiDeleteAccount (VStr "bob") true);
                   Event "signout" (Payload "delete_account" (Some 0) None)]
                  (VStr "bob") true eq_refl)
       as [H1 H2]; [vm_compute; reflexivity | apply list_elem_of_here |]);
    [exact H1 | exact (proj1 H2)].
Defined.

Lemma signUp_asks_witness :
  let w := signed_in_as admin in
  let acts := [Call (ApiSignUp (VObj new_account) false)] in
  log (signUp copy_profile new_account (Fulfilled account_created) w).2
    = log w ++ acts
  ∧ Call (ApiSignUp (VObj new_account) false) ∈ acts
  ∧ valid_details new_account = true
  ∧ false = negb (is_admin w).
Proof.
  split_and!; [vm_compute; reflexivity | apply list_elem_of_here |..];
    (edestruct (signUp_asks copy_profile (signed_in_as admin) new_account
                  (Fulfilled account_created)
                  [Call (ApiSignUp (VObj new_account) false)]
                  (VObj new_account) false)
       as (H1 & H2 & H3); [vm_compute; reflexivity | apply list_elem_of_here |]);
    [exact H2 | exact H3].
Defined.

Lemma updates_compose_witness :
  let w := signed_in_as bob in
  let d1 := {| result_user := {[ "username" := VStr "bobby" ]} |} in
  let d2 := {| result_user := {[ "email" := VStr "bob@example.org" ]} |} in
  let w1 := (_updateUserDetails (VObj {[ "username" := VStr "bobby" ]})
               (Fulfilled d1) w).2 in
  let w2 := (_updateUserDetails (VObj {[ "email" := VStr "bob@example.org" ]})
               (Fulfilled d2) w1).2 in
  user (this w) = Some 0
  ∧ store w !! 0 = Some (plain bob)
  ∧ ∃ o2 : user_object,
      store w2 = <[0 := o2]> (store w)
      ∧ this w2 = this w
      ∧ ∀ k, k ≠ "__proto__" →
          own o2 !! k =
            match result_user d2 !! k with
            | Some v => Some v
            | None =>
                match result_user d1 !! k with
                | Some v => Some v
                | None => own (plain bob) !! k
                end
            end.
Proof.
  split_and!; [reflexivity..|].
  apply (updates_compose (signed_in_as bob) 0 (plain bob)
           (VObj {[ "username" := VStr "bobby" ]})
           (VObj {[ "email" := VStr "bob@example.org" ]})
           {| result_user := {[ "username" := VStr "bobby" ]} |}
           {| result_user := {[ "email" := VStr "bob@example.org" ]} |});
    reflexivity.
Defined.
